(** * Playback of recorded voltage traces: the NetPyNE temporal-summation demos

    A shallow embedding of the animation logic of

      - [temporal_summation_experiment.py] and [inhibitory_version.py]
        (identical [init]/[update] callbacks: two traces, three stimulus
        markers, one highlighted time window), and
      - [Excitation-inhibition_AMPA_GABA.py] (two traces only),

    followed by the properties of that logic.

    Conventions of the embedding.
      - Python [int]s that count frames and samples are never negative here
        (they come from [range] and [len]); they are [nat].
      - A recorded sample (a finite double) is represented by the rational it
        denotes, so the comparisons of [update] are comparisons in [Q].
      - [simConfig.dt] and the quotient [21 / dt] are genuine binary64
        values; [int(21 / dt)] is computed with the kernel's floats.
      - An exception is a value of [result]: [Raise e].
      - The module-level names the callbacks read and mutate ([time],
        [V_wide], [line_wide], [stim_lines], [summation_patch], ...) are the
        fields of one [store] that every callback takes and returns. *)

From Stdlib Require Import ZArith QArith Floats Lia.
From stdpp Require Import gmap strings list.

(** ** Exceptions *)

Inductive exn := IndexError | KeyError | TypeError | ValueError.

Inductive result (A : Type) :=
  | Ok (a : A)
  | Raise (e : exn).
Arguments Ok {A} a.
Arguments Raise {A} e.

(** Sequencing, [x ← r; k]: the first exception raised is the outcome. *)
#[global] Instance result_bind : MBind result := λ A B k r,
  match r with
  | Ok a => k a
  | Raise e => Raise e
  end.

Definition succeeds {A} (r : result A) : Prop := exists a, r = Ok a.

(** ** Python primitives used by the scripts *)

(** [l[i]] for [0 <= i]: [IndexError] past the end. *)
Definition getitem (l : list Q) (i : nat) : result Q :=
  match l !! i with
  | Some x => Ok x
  | None => Raise IndexError
  end.

(** [int(x)] on a float: truncation toward zero; [ValueError] on nan and
    the infinities (Python raises OverflowError for the latter; the
    distinction plays no role here). *)
Definition py_int (x : float) : result Z :=
  match Prim2SF x with
  | S754_zero _ => Ok 0%Z
  | S754_finite sgn m e =>
      let a := if (0 <=? e)%Z then Z.shiftl (Z.pos m) e
               else Z.shiftr (Z.pos m) (- e) in
      Ok (if sgn then (- a)%Z else a)
  | S754_infinity _ | S754_nan => Raise ValueError
  end.

(** [a <= t <= b], Python's chained comparison. *)
Definition between (a t b : Q) : bool := Qle_bool a t && Qle_bool t b.

(** [max(l)]: [ValueError] on the empty sequence; otherwise the scan
    [if item > best: best = item], which keeps the first largest item. *)
Definition py_max (l : list Q) : result Q :=
  match l with
  | [] => Raise ValueError
  | x :: l' => Ok (fold_left (λ best item, if Qle_bool item best then best else item) l' x)
  end.

(** [min(l)]: the same scan with [if item < best: best = item]. *)
Definition py_min (l : list Q) : result Q :=
  match l with
  | [] => Raise ValueError
  | x :: l' => Ok (fold_left (λ best item, if Qle_bool best item then best else item) l' x)
  end.

(** ** The simulator's output, [sim.allSimData]

    A dictionary of recordings, with the subscripts of a Python [dict]
    ([KeyError] on a missing key). Under ['t'] it holds, when the entry is
    present, the sequence of recorded time stamps; under any other name, such
    as ['V_soma'], a trace: either a sequence of samples or a dictionary from
    cell names to sequences. *)

Inductive simval :=
  | SimSeq (l : list Q)
  | SimDict (d : gmap string (list Q)).

(** The entry ['t'] is kept apart from the other entries, so that its type
    says what it holds. *)
Record simdata := MkSim {
  sim_t : option (list Q);
  sim_traces : gmap string simval
}.

(** [d[k]] on a dictionary. *)
Definition dict_getitem {V} (d : gmap string V) (k : string) : result V :=
  match d !! k with
  | Some v => Ok v
  | None => Raise KeyError
  end.

(** [time = sim.allSimData['t']]: a plain subscript, which raises
    [KeyError] when the entry is absent and otherwise only assigns. *)
Definition extract_time (allSimData : simdata) : result (list Q) :=
  match sim_t allSimData with
  | Some l => Ok l
  | None => Raise KeyError
  end.

(** Lines 118-124 of [temporal_summation_experiment.py] (101-107 of
    [inhibitory_version.py]): the guarded extraction of the two channels. *)
Definition extract_channels (allSimData : simdata)
  : list Q * list Q :=
  match sim_traces allSimData !! "V_soma" with
  | Some (SimDict cells) =>
      (default [] (cells !! "cell_0"), default [] (cells !! "cell_1"))
  | _ => ([], [])
  end.

(** ** The state shared by the callbacks *)

Record Line2D := MkLine { xdata : list Q; ydata : list Q }.

(** [stim_lines] holds the vertical lines drawn so far, each one
    represented by its abscissa; [ax.axvline] puts a line on the axes and
    [sl.remove()] takes it off, so the axes show exactly the lines of
    [stim_lines]. [summation_patch] is the patch's visibility. *)
Record store := MkStore {
  time : list Q;
  V_wide : list Q;
  V_narrow : list Q;
  line_wide : Line2D;
  line_narrow : Line2D;
  stim_lines : list Z;
  summation_patch : bool
}.

Definition set_line_wide (d : Line2D) (s : store) : store :=
  MkStore (time s) (V_wide s) (V_narrow s) d (line_narrow s)
          (stim_lines s) (summation_patch s).

Definition set_line_narrow (d : Line2D) (s : store) : store :=
  MkStore (time s) (V_wide s) (V_narrow s) (line_wide s) d
          (stim_lines s) (summation_patch s).

Definition set_stim_lines (l : list Z) (s : store) : store :=
  MkStore (time s) (V_wide s) (V_narrow s) (line_wide s) (line_narrow s)
          l (summation_patch s).

Definition set_visible (b : bool) (s : store) : store :=
  MkStore (time s) (V_wide s) (V_narrow s) (line_wide s) (line_narrow s)
          (stim_lines s) b.

(** [stim_lines.append(ax.axvline(x, ...))] *)
Definition append_axvline (x : Z) (s : store) : store :=
  set_stim_lines (stim_lines s ++ [x]) s.

(** The state after the module-level set-up (lines 116-143): the extracted
    data, two empty lines, no marker, the patch hidden. *)
Definition setup (t vw vn : list Q) : store :=
  MkStore t vw vn (MkLine [] []) (MkLine [] []) [] false.

Definition load (allSimData : simdata) : result store :=
  t ← extract_time allSimData;
  let '(vw, vn) := extract_channels allSimData in
  Ok (setup t vw vn).

(** ** The callbacks *)

(** [simConfig.dt = 0.025], the nearest double. *)
Definition dt : float := 0x1.999999999999ap-6%float.

(** [min(frame * step, len(time))] *)
Definition reveal_index (step frame N : nat) : nat := Nat.min (frame * step) N.

(** [init] *)
Definition init (s : store) : store :=
  let s := set_line_wide (MkLine [] []) s in
  let s := set_line_narrow (MkLine [] []) s in
  let s := set_stim_lines [] s in
  set_visible false s.

(** One marker statement of [update]:
    [if idx >= int(T / dt) and len(stim_lines) < k:
         stim_lines.append(ax.axvline(T, ...))] *)
Definition marker (T : Z) (k : nat) (idx : nat) (s : store) : result store :=
  thr ← py_int (PrimFloat.div (PrimFloat.of_uint63 (Uint63.of_Z T)) dt);
  if (thr <=? Z.of_nat idx)%Z && (length (stim_lines s) <? k)
  then Ok (append_axvline T s)
  else Ok s.

(** The condition of the highlight statement,
    [idx > 0 and 20 <= time[idx-1] <= 35]; [and] evaluates its right
    operand only when the left one holds. *)
Definition highlight (t : list Q) (idx : nat) : result bool :=
  if 0 <? idx
  then x ← getitem t (idx - 1); Ok (between 20 x 35)
  else Ok false.

Section Playback.

(** Samples advanced per frame: the local constant [step] of [update]. *)
Variable step : nat.

(** [update(frame)] *)
Definition update_with (frame : nat) (s : store) : result store :=
  let idx := reveal_index step frame (length (time s)) in
  let s := set_line_wide (MkLine (take idx (time s)) (take idx (V_wide s))) s in
  let s := set_line_narrow (MkLine (take idx (time s)) (take idx (V_narrow s))) s in
  s ← marker 21 1 idx s;
  s ← marker 26 2 idx s;
  s ← marker 61 3 idx s;
  visible ← highlight (time s) idx;
  Ok (set_visible visible s).

(** The frames [fs] delivered in order. *)
Fixpoint run_frames (fs : list nat) (s : store) : result store :=
  match fs with
  | [] => Ok s
  | f :: fs' => s' ← update_with f s; run_frames fs' s'
  end.

End Playback.

(** Both marker scripts fix [step = 16]. *)
Definition update : nat -> store -> result store := update_with 16.

(** [num_frames = (len(time) // 8) + 20] *)
Definition num_frames (s : store) : nat := length (time s) / 8 + 20.

(** The artists [update] returns, [[line_wide, line_narrow, summation_patch]
    + stim_lines], read off the store it leaves. *)
Inductive artist :=
  | ALine (l : Line2D)
  | APatch (visible : bool)
  | AVLine (x : Z).

Definition artists (s : store) : list artist :=
  [ALine (line_wide s); ALine (line_narrow s); APatch (summation_patch s)]
  ++ (AVLine <$> stim_lines s).

(** The markers a tick has added to those already drawn. *)
Definition fired_now (before after : store) : list Z :=
  drop (length (stim_lines before)) (stim_lines after).

(** ** The scheduler

    [FuncAnimation(fig, update, frames=num_frames, init_func=init,
    repeat=True)] belongs to matplotlib. Its contract: [init] is called
    once before the first frame; every timer tick hands the next element of
    [range(num_frames)] to [update]; the tick that finds the sequence
    exhausted calls [init] again and starts a fresh sequence. [restarts]
    is a ghost counter of the completed cycles. *)
Record anim := MkAnim {
  st : store;
  frames : nat;
  frame_seq : list nat;
  restarts : nat
}.

Definition start (s : store) : anim :=
  MkAnim (init s) (num_frames s) (seq 0 (num_frames s)) 0.

Definition tick (a : anim) : result anim :=
  match frame_seq a with
  | f :: rest =>
      s' ← update f (st a);
      Ok (MkAnim s' (frames a) rest (restarts a))
  | [] =>
      Ok (MkAnim (init (st a)) (frames a) (seq 0 (frames a)) (S (restarts a)))
  end.

Fixpoint ticks (n : nat) (a : anim) : result anim :=
  match n with
  | O => Ok a
  | S n' => a' ← tick a; ticks n' a'
  end.

(** ** [Excitation-inhibition_AMPA_GABA.py] *)

Module ExcitationInhibition.

(** [sim.allSimData['V_soma'][cell]], lines 147-148: plain subscripts. *)
Definition extract_cell (allSimData : simdata) (cell : string)
  : result (list Q) :=
  v ← dict_getitem (sim_traces allSimData) "V_soma";
  match v with
  | SimDict cells => dict_getitem cells cell
  | SimSeq _ => Raise TypeError
  end.

Record traces := MkTraces { t : list Q; V_A : list Q; V_B : list Q }.

Definition load (allSimData : simdata) : result traces :=
  t ← extract_time allSimData;
  va ← extract_cell allSimData "cell_0";
  vb ← extract_cell allSimData "cell_1";
  Ok (MkTraces t va vb).

(** [update(frame)] with [step = 10]: the data of [line_A] and [line_B]. *)
Definition update (frame : nat) (d : traces) : Line2D * Line2D :=
  let idx := reveal_index 10 frame (length (t d)) in
  (MkLine (take idx (t d)) (take idx (V_A d)),
   MkLine (take idx (t d)) (take idx (V_B d))).

(** [frames = len(time) // 10] *)
Definition frames (d : traces) : nat := length (t d) / 10.

(** The two numbers of the result summary, lines 191-192: [max(V_A)], then
    [min(V_B)]. *)
Definition summary (d : traces) : result (Q * Q) :=
  peak ← py_max (V_A d);
  low ← py_min (V_B d);
  Ok (peak, low).

End ExcitationInhibition.

(** ** Scenario A: 8000 samples, 0.025 apart *)

Definition samples_A : list Q :=
  (λ i : nat, Z.of_nat i # 40) <$> seq 0 (Z.to_nat 8000).

(** A flat trace at the resting potential, one value per sample. *)
Definition rest_A : list Q := replicate (Z.to_nat 8000) (-70 # 1).

Definition scenario_A (vw vn : list Q) : store := setup samples_A vw vn.

(** ** Notions used in the statements

    Closed forms and predicates of the development, none of them taken from
    the scripts; [update_with_eq] and [run_cycle] below tie the closed forms
    to the callbacks. *)

(** What one marker statement does to the list of drawn lines. *)
Definition add_marker (T thr : Z) (k idx : nat) (l : list Z) : list Z :=
  if (thr <=? Z.of_nat idx)%Z && (length l <? k) then l ++ [T] else l.

(** The three marker statements in sequence. *)
Definition stim_after (idx : nat) (l : list Z) : list Z :=
  add_marker 61 2440 3 idx (add_marker 26 1040 2 idx (add_marker 21 840 1 idx l)).

(** The visibility chosen by the highlight statement when no read fails. *)
Definition visible_at (t : list Q) (idx : nat) : bool :=
  match idx with
  | O => false
  | S i => match t !! i with
           | Some x => between 20 x 35
           | None => false
           end
  end.

(** The markers in the order of the statements that draw them. *)
Definition markers : list Z := [21; 26; 61]%Z.

(** How many thresholds the reveal index [idx] has reached. *)
Definition fired_count (idx : nat) : nat :=
  if (2440 <=? Z.of_nat idx)%Z then 3
  else if (1040 <=? Z.of_nat idx)%Z then 2
  else if (840 <=? Z.of_nat idx)%Z then 1
  else 0.

(** The store [update] leaves: [frame] read at reveal index [idx]. *)
Definition revealed (idx : nat) (s : store) : store :=
  MkStore (time s) (V_wide s) (V_narrow s)
          (MkLine (take idx (time s)) (take idx (V_wide s)))
          (MkLine (take idx (time s)) (take idx (V_narrow s)))
          (stim_after idx (stim_lines s))
          (visible_at (time s) idx).

(** The store once frames [0 .. k] of a cycle begun on [s] are drawn. *)
Definition cycle_state (step : nat) (s : store) (k : nat) : store :=
  let idx := reveal_index step k (length (time s)) in
  MkStore (time s) (V_wide s) (V_narrow s)
          (MkLine (take idx (time s)) (take idx (V_wide s)))
          (MkLine (take idx (time s)) (take idx (V_narrow s)))
          (take (fired_count idx) markers)
          (visible_at (time s) idx).

(** The store on which frame [f] of that cycle is drawn. *)
Definition cycle_before (step : nat) (s : store) (f : nat) : store :=
  match f with
  | O => init s
  | S k => cycle_state step s k
  end.

(** [ceil(N / step)] *)
Definition ceil_div (N step : nat) : nat := (N + step - 1) / step.

(** Frame [f] is the first of its cycle whose reveal index reaches [i]. *)
Definition first_reach (step N : nat) (i : Z) (f : nat) : Prop :=
  (i <= Z.of_nat (reveal_index step f N))%Z
  /\ forall g, g < f -> (Z.of_nat (reveal_index step g N) < i)%Z.

(** The number of markers on the axes when frame [f] of a cycle arrives. *)
Definition prev_count (step N f : nat) : nat :=
  match f with
  | O => 0
  | S k => fired_count (reveal_index step k N)
  end.

(** An output with two time stamps in which only [cell_0] was recorded. *)
Definition sim_without_cell_1 : simdata :=
  MkSim (Some [0; 1 # 40]%Q)
        {[ "V_soma" := SimDict {[ "cell_0" := [-70 # 1; -70 # 1]%Q ]} ]}.

(** Time stamps in non-decreasing order. *)
Definition ascending (t : list Q) : Prop :=
  forall i j x y, i <= j -> t !! i = Some x -> t !! j = Some y -> (x <= y)%Q.

(** The patch's visibility once frames [0 .. f] of a cycle begun on [s] are
    drawn ([false] if a frame raised). *)
Definition patch_after (step : nat) (s : store) (f : nat) : bool :=
  match run_frames step (seq 0 (S f)) (init s) with
  | Ok s' => summation_patch s'
  | Raise _ => false
  end.

(** [int(T / dt)] lands on [40 * T]. *)
Definition threshold_exact (T : Z) : bool :=
  match py_int (PrimFloat.div (PrimFloat.of_uint63 (Uint63.of_Z T)) dt) with
  | Ok z => (z =? 40 * T)%Z
  | Raise _ => false
  end.

(** * Properties *)

(** ** The pure content of [update] *)

(** The three quotients [int(T / dt)], as Python computes them. *)
Lemma threshold_21 :
  py_int (PrimFloat.div (PrimFloat.of_uint63 (Uint63.of_Z 21)) dt) = Ok 840%Z.
Proof. vm_compute. reflexivity. Qed.

Lemma threshold_26 :
  py_int (PrimFloat.div (PrimFloat.of_uint63 (Uint63.of_Z 26)) dt) = Ok 1040%Z.
Proof. vm_compute. reflexivity. Qed.

Lemma threshold_61 :
  py_int (PrimFloat.div (PrimFloat.of_uint63 (Uint63.of_Z 61)) dt) = Ok 2440%Z.
Proof. vm_compute. reflexivity. Qed.

Lemma marker_eq T thr k idx s :
  py_int (PrimFloat.div (PrimFloat.of_uint63 (Uint63.of_Z T)) dt) = Ok thr ->
  marker T k idx s = Ok (set_stim_lines (add_marker T thr k idx (stim_lines s)) s).
Proof.
  intros Hthr. unfold marker, add_marker. rewrite Hthr.
  destruct s as [t vw vn lw ln sl vis]. cbn.
  destruct (_ && _); reflexivity.
Qed.

Lemma reveal_index_le step frame N : reveal_index step frame N <= N.
Proof. unfold reveal_index. lia. Qed.

Lemma reveal_index_mono step f g N :
  f <= g -> reveal_index step f N <= reveal_index step g N.
Proof. unfold reveal_index. nia. Qed.

Lemma highlight_in_range (t : list Q) idx :
  idx <= length t -> highlight t idx = Ok (visible_at t idx).
Proof.
  intros Hle. unfold highlight, visible_at, getitem.
  destruct idx as [|i]; [reflexivity|].
  replace (S i - 1) with i by lia. cbn.
  destruct (lookup_lt_is_Some_2 t i ltac:(lia)) as [x ->]. reflexivity.
Qed.

(** [update] never raises, and [revealed] is the store it leaves. *)
Lemma update_with_eq step frame s :
  update_with step frame s
  = Ok (revealed (reveal_index step frame (length (time s))) s).
Proof.
  unfold update_with.
  rewrite (marker_eq 21 840 1 _ _ threshold_21). cbn.
  rewrite (marker_eq 26 1040 2 _ _ threshold_26). cbn.
  rewrite (marker_eq 61 2440 3 _ _ threshold_61). cbn.
  rewrite highlight_in_range by apply reveal_index_le.
  reflexivity.
Qed.

Lemma fired_count_le idx : fired_count idx <= 3.
Proof. unfold fired_count. repeat case_match; lia. Qed.

Lemma fired_count_mono i j : i <= j -> fired_count i <= fired_count j.
Proof.
  intros Hij. unfold fired_count.
  repeat (case_match; try lia).
Qed.

(** On a list of the first [c] markers the three statements leave the
    first [max c (fired_count idx)] markers. *)
Lemma stim_after_prefix c idx :
  c <= 3 ->
  stim_after idx (take c markers) = take (Nat.max c (fired_count idx)) markers.
Proof.
  intros Hc. unfold stim_after, add_marker, fired_count, markers.
  destruct (Z.leb_spec 840 (Z.of_nat idx)), (Z.leb_spec 1040 (Z.of_nat idx)),
    (Z.leb_spec 2440 (Z.of_nat idx)); try lia;
    destruct c as [|[|[|[|c]]]]; try lia; reflexivity.
Qed.

Lemma run_frames_app step fs gs s :
  run_frames step (fs ++ gs) s
  = (s' ← run_frames step fs s; run_frames step gs s').
Proof.
  revert s. induction fs as [|f fs IH]; intros s; cbn; [reflexivity|].
  rewrite update_with_eq. cbn. apply IH.
Qed.

(** ** A cycle, frame by frame *)

Lemma update_cycle_state step s k g :
  k <= g ->
  update_with step g (cycle_state step s k) = Ok (cycle_state step s g).
Proof.
  intros Hkg. rewrite update_with_eq. unfold revealed, cycle_state. cbn.
  rewrite stim_after_prefix by apply fired_count_le.
  rewrite Nat.max_r; [reflexivity|].
  apply fired_count_mono, reveal_index_mono, Hkg.
Qed.

Lemma update_init step s g :
  update_with step g (init s) = Ok (cycle_state step s g).
Proof.
  rewrite update_with_eq. unfold revealed, cycle_state, init. cbn.
  rewrite (stim_after_prefix 0) by lia. reflexivity.
Qed.

Lemma update_cycle_before step s f :
  update_with step f (cycle_before step s f) = Ok (cycle_state step s f).
Proof.
  destruct f as [|k]; cbn; [apply update_init|].
  apply update_cycle_state. lia.
Qed.

Lemma run_cycle step s f :
  run_frames step (seq 0 f) (init s) = Ok (cycle_before step s f).
Proof.
  induction f as [|k IH]; [reflexivity|].
  rewrite seq_S, run_frames_app, IH. cbn.
  rewrite update_cycle_before. reflexivity.
Qed.

(** ** The scheduler *)

Lemma tick_succeeds a : succeeds (tick a).
Proof.
  unfold tick, succeeds, update. destruct (frame_seq a) as [|f rest]; [eauto|].
  rewrite update_with_eq. cbn. eauto.
Qed.

Lemma ticks_succeeds n a : succeeds (ticks n a).
Proof.
  revert a. induction n as [|n IH]; intros a; cbn; [unfold succeeds; eauto|].
  destruct (tick_succeeds a) as [a' ->]. cbn. apply IH.
Qed.

(** Within a cycle the ticks are the calls of [update] on the pending
    frames. *)
Lemma ticks_in_cycle k a :
  k <= length (frame_seq a) ->
  ticks k a
  = (s' ← run_frames 16 (take k (frame_seq a)) (st a);
     Ok (MkAnim s' (frames a) (drop k (frame_seq a)) (restarts a))).
Proof.
  revert a. induction k as [|k IH]; intros a Hk.
  - destruct a; reflexivity.
  - destruct a as [s n fs r]. cbn in Hk. destruct fs as [|f rest]; cbn in Hk; [lia|].
    cbn. unfold update. rewrite update_with_eq. cbn.
    rewrite IH by (cbn; lia). reflexivity.
Qed.

(** The animation after [k] ticks, for [k] up to the length of a cycle. *)
Lemma ticks_start k s :
  k <= num_frames s ->
  ticks k (start s)
  = Ok (MkAnim (cycle_before 16 s k) (num_frames s)
               (seq k (num_frames s - k)) 0).
Proof.
  intros Hk. unfold start.
  rewrite ticks_in_cycle by (cbn [frame_seq]; rewrite length_seq; lia).
  cbn [frame_seq st frames restarts].
  rewrite take_seq, drop_seq, Nat.min_l by lia.
  rewrite run_cycle. reflexivity.
Qed.

(** ** Arithmetic of the reveal index *)

Lemma ceil_div_le N step f : 0 < step -> ceil_div N step <= f <-> N <= f * step.
Proof.
  intros Hs. unfold ceil_div.
  pose proof (Nat.div_mod_eq (N + step - 1) step) as Hdm.
  pose proof (Nat.mod_upper_bound (N + step - 1) step ltac:(lia)) as Hr.
  set (q := (N + step - 1) / step) in *.
  set (r := (N + step - 1) mod step) in *.
  split; intros H; nia.
Qed.

Lemma reveal_index_full step f N :
  0 < step -> reveal_index step f N = N <-> ceil_div N step <= f.
Proof.
  intros Hs. rewrite ceil_div_le by assumption. unfold reveal_index. lia.
Qed.

(** ** The highlighted window *)

Lemma between_iff a t b : between a t b = true <-> (a <= t /\ t <= b)%Q.
Proof.
  unfold between. rewrite andb_true_iff, !Qle_bool_iff. reflexivity.
Qed.

(** The latest revealed time stamp: [time[idx-1]] when [idx > 0]. *)
Lemma visible_at_last (t : list Q) idx :
  idx <= length t ->
  visible_at t idx = true
  <-> exists x, last (take idx t) = Some x /\ between 20 x 35 = true.
Proof.
  intros Hle. rewrite last_lookup, length_take_le by assumption.
  destruct idx as [|i]; cbn [visible_at Init.Nat.pred].
  - split; [discriminate|]. intros (x & Hx & _). discriminate.
  - rewrite lookup_take_lt by lia.
    destruct (t !! i) as [x|]; split.
    + intros H. exists x. split; [reflexivity|exact H].
    + intros (y & Hy & H). congruence.
    + discriminate.
    + intros (y & Hy & _). discriminate.
Qed.

(** C1, as the scripts have it: the window is closed at both ends. *)
Lemma highlight_at_window_end :
  between 20 35 35 = true
  /\ (exists s', update 1 (setup [35%Q] [] []) = Ok s'
                 /\ xdata (line_wide s') = [35%Q]
                 /\ summation_patch s' = true)
  /\ ((20 <= 35)%Q /\ (35 < 35)%Q -> False).
Proof.
  split; [reflexivity|]. split.
  - eexists. split; [reflexivity|]. split; reflexivity.
  - intros [_ H]. revert H. apply Qlt_irrefl.
Qed.

(** C1 (amended). The highlight test of [update] is the closed interval:
    the patch is shown exactly when some sample is revealed and the time
    stamp [t] of the latest one satisfies [20 <= t <= 35]; at 19.9 it is
    hidden, at 25.0 and at 35.0 it is shown. *)
Theorem highlight_closed_window :
  (forall t, between 20 t 35 = true <-> (20 <= t /\ t <= 35)%Q)
  /\ between 20 (199 # 10) 35 = false
  /\ between 20 25 35 = true
  /\ between 20 35 35 = true
  /\ (forall step frame s, exists s',
        update_with step frame s = Ok s'
        /\ (summation_patch s' = true
            <-> exists t,
                 last (take (reveal_index step frame (length (time s))) (time s))
                 = Some t
                 /\ (20 <= t /\ t <= 35)%Q)).
Proof.
  split; [intros t; apply between_iff|].
  do 3 (split; [reflexivity|]).
  intros step frame s. eexists. split; [apply update_with_eq|].
  cbn [revealed summation_patch].
  rewrite visible_at_last by apply reveal_index_le.
  split; intros (t & Ht & Hb); exists t; (split; [exact Ht|]);
    apply between_iff; exact Hb.
Qed.

(** ** The reveal index along the calls *)

(** C4, as the scripts have it: frames are numbered from 0, so with 16
    samples and [step = 16] (where [ceil(N / step) = 1]) the first call
    reveals nothing and the second one everything. *)
Lemma first_call_reveals_nothing :
  ceil_div 16 16 = 1
  /\ reveal_index 16 0 16 = 0
  /\ (exists a, ticks 1 (start (setup (replicate 16 0%Q) [] [])) = Ok a
                /\ length (xdata (line_wide (st a))) = 0)
  /\ (exists a, ticks 2 (start (setup (replicate 16 0%Q) [] [])) = Ok a
                /\ length (xdata (line_wide (st a))) = 16).
Proof.
  split; [reflexivity|]. split; [reflexivity|].
  split; eexists; (split; [vm_compute; reflexivity | reflexivity]).
Qed.

Lemma ceil_div_16_scheduled N : ceil_div N 16 < N / 8 + 20.
Proof.
  unfold ceil_div.
  pose proof (Nat.div_mod_eq (N + 16 - 1) 16).
  pose proof (Nat.mod_upper_bound (N + 16 - 1) 16 ltac:(lia)).
  pose proof (Nat.div_mod_eq N 8).
  pose proof (Nat.mod_upper_bound N 8 ltac:(lia)).
  lia.
Qed.

(** C4 (amended). For every trace length [N] and every [step > 0], the
    reveal index [min(frame * step, N)] is non-decreasing in the frame
    number, is 0 at frame 0, and equals [N] exactly from frame
    [ceil(N / step)] on; frames are numbered from 0, so call number [k + 1]
    of a cycle draws frame [k] and the index first equals [N] on call
    [ceil(N / step) + 1], which the marker scripts do schedule. *)
Theorem reveal_index_sequence N step :
  0 < step ->
  (forall f, reveal_index step f N <= reveal_index step (S f) N)
  /\ reveal_index step 0 N = 0
  /\ (forall f, reveal_index step f N = N <-> ceil_div N step <= f)
  /\ (forall s k, k < num_frames s -> exists a,
        ticks (S k) (start s) = Ok a
        /\ xdata (line_wide (st a))
           = take (reveal_index 16 k (length (time s))) (time s))
  /\ (forall s, ceil_div (length (time s)) 16 < num_frames s).
Proof.
  intros Hs. split; [intros f; apply reveal_index_mono; lia|].
  split; [reflexivity|].
  split; [intros f; apply reveal_index_full, Hs|].
  split.
  - intros s k Hk. eexists. split; [apply ticks_start; lia|]. reflexivity.
  - intros s. apply ceil_div_16_scheduled.
Qed.

(** The instance [N = 16], [step = 16]: full from frame 1 on. *)
Lemma reveal_index_sequence_witness :
  0 < 16
  /\ (reveal_index 16 1 16 = 16 <-> ceil_div 16 16 <= 1).
Proof.
  split; [lia|].
  apply (proj1 (proj2 (proj2 (reveal_index_sequence 16 16 ltac:(lia))))).
Defined.

(** ** Markers: when each one is drawn *)

Lemma fired_count_ge idx :
  (1 <= fired_count idx <-> (840 <= Z.of_nat idx)%Z)
  /\ (2 <= fired_count idx <-> (1040 <= Z.of_nat idx)%Z)
  /\ (3 <= fired_count idx <-> (2440 <= Z.of_nat idx)%Z).
Proof.
  unfold fired_count.
  destruct (Z.leb_spec 840 (Z.of_nat idx)), (Z.leb_spec 1040 (Z.of_nat idx)),
    (Z.leb_spec 2440 (Z.of_nat idx)); lia.
Qed.

Lemma prev_count_lt step N f j i :
  0 < j ->
  (forall idx, j <= fired_count idx <-> (i <= Z.of_nat idx)%Z) ->
  prev_count step N f < j
  <-> forall g, g < f -> (Z.of_nat (reveal_index step g N) < i)%Z.
Proof.
  intros Hj Hfc. destruct f as [|k]; cbn [prev_count].
  - split; [intros _ g Hg; lia | intros _; exact Hj].
  - split.
    + intros Hlt g Hg.
      assert (~ (i <= Z.of_nat (reveal_index step k N))%Z) as Hk
        by (rewrite <- Hfc; lia).
      pose proof (reveal_index_mono step g k N ltac:(lia)). lia.
    + intros Hall. specialize (Hall k ltac:(lia)).
      destruct (le_lt_dec j (fired_count (reveal_index step k N))) as [Hge|]; [|lia].
      apply Hfc in Hge. lia.
Qed.

Lemma prev_count_le step N f :
  prev_count step N f <= fired_count (reveal_index step f N).
Proof.
  destruct f as [|k]; cbn [prev_count]; [lia|].
  apply fired_count_mono, reveal_index_mono. lia.
Qed.

(** Which markers lie between the first [c] and the first [c'] ones. *)
Lemma elem_of_markers_between c c' :
  c <= c' <= 3 ->
  (21%Z ∈ drop c (take c' markers) <-> c < 1 <= c')
  /\ (26%Z ∈ drop c (take c' markers) <-> c < 2 <= c')
  /\ (61%Z ∈ drop c (take c' markers) <-> c < 3 <= c').
Proof.
  intros Hc. unfold markers.
  destruct c' as [|[|[|[|c']]]]; try lia;
    destruct c as [|[|[|[|c]]]]; try lia; cbn;
    rewrite ?elem_of_cons, ?elem_of_nil;
    (split; [|split]); (split; [intros H; try lia; intuition discriminate
                               | intros H; try lia; auto]).
Qed.

Lemma fired_now_cycle step s f :
  fired_now (cycle_before step s f) (cycle_state step s f)
  = drop (prev_count step (length (time s)) f)
         (take (fired_count (reveal_index step f (length (time s)))) markers).
Proof.
  unfold fired_now. f_equal.
  destruct f as [|k]; [reflexivity|]. cbn.
  rewrite length_take_le; [reflexivity|].
  pose proof (fired_count_le (reveal_index step k (length (time s)))).
  cbn. lia.
Qed.

Lemma first_reach_unique step N i f g :
  first_reach step N i f -> first_reach step N i g -> f = g.
Proof.
  intros [Hf Hf'] [Hg Hg'].
  destruct (lt_eq_lt_dec f g) as [[Hlt|Heq]|Hgt]; [|exact Heq|].
  - specialize (Hg' f Hlt). lia.
  - specialize (Hf' g Hgt). lia.
Qed.

Lemma first_reach_exists step N i :
  0 < step -> (0 <= i <= Z.of_nat N)%Z -> exists f, first_reach step N i f.
Proof.
  intros Hs Hi. exists (ceil_div (Z.to_nat i) step). split.
  - assert (Z.to_nat i <= ceil_div (Z.to_nat i) step * step) as H
      by (apply ceil_div_le; [exact Hs|lia]).
    unfold reveal_index. lia.
  - intros g Hg.
    assert (~ Z.to_nat i <= g * step) as H
      by (rewrite <- ceil_div_le by exact Hs; lia).
    unfold reveal_index. lia.
Qed.

(** C2, as the scripts have it: a marker is drawn when the reveal index
    reaches [int(T / dt)], one sample before the time stamp [T] itself is
    revealed. In scenario A frame 65 reveals 1040 samples, the latest at
    25.975, and draws the marker of 26; frame 66, the first to reveal a
    time stamp of at least 26, draws nothing. *)
Lemma marker_26_drawn_before_time_26 :
  exists sb sa sc,
    run_frames 16 (seq 0 65) (init (scenario_A rest_A rest_A)) = Ok sb
    /\ update 65 sb = Ok sa
    /\ update 66 sa = Ok sc
    /\ fired_now sb sa = [26%Z]
    /\ last (xdata (line_wide sa)) = Some (1039 # 40)
    /\ (1039 # 40 < 26)%Q
    /\ fired_now sa sc = []
    /\ last (xdata (line_wide sc)) = Some (1055 # 40)
    /\ (26 <= 1055 # 40)%Q.
Proof.
  exists (cycle_before 16 (scenario_A rest_A rest_A) 65),
         (cycle_state 16 (scenario_A rest_A rest_A) 65),
         (cycle_state 16 (scenario_A rest_A rest_A) 66).
  split; [apply run_cycle|].
  split; [apply update_cycle_before|].
  split; [apply update_cycle_state; lia|].
  split; [vm_compute; reflexivity|].
  split; [vm_compute; reflexivity|].
  split; [reflexivity|].
  split; [vm_compute; reflexivity|].
  split; [vm_compute; reflexivity|].
  unfold Qle. cbn. lia.
Qed.

(** C2 (amended). Within a cycle each of the three markers is newly drawn
    on the first frame whose reveal index reaches its threshold index
    [int(T / dt)] (840, 1040, 2440) and on no other frame, whatever the
    step; that frame is unique, and it exists as soon as the step is
    positive and the trace has that many samples. *)
Theorem marker_drawn_once step s :
  (forall f, exists sb sa,
      run_frames step (seq 0 f) (init s) = Ok sb
      /\ update_with step f sb = Ok sa
      /\ (21%Z ∈ fired_now sb sa <-> first_reach step (length (time s)) 840 f)
      /\ (26%Z ∈ fired_now sb sa <-> first_reach step (length (time s)) 1040 f)
      /\ (61%Z ∈ fired_now sb sa <-> first_reach step (length (time s)) 2440 f))
  /\ (forall i f g,
        first_reach step (length (time s)) i f ->
        first_reach step (length (time s)) i g -> f = g)
  /\ (forall i,
        0 < step -> (0 <= i <= Z.of_nat (length (time s)))%Z ->
        exists f, first_reach step (length (time s)) i f).
Proof.
  split; [|split; [intros i f g; apply first_reach_unique
                  |intros i; apply first_reach_exists]].
  intros f. exists (cycle_before step s f), (cycle_state step s f).
  split; [apply run_cycle|]. split; [apply update_cycle_before|].
  rewrite fired_now_cycle.
  set (N := length (time s)).
  pose proof (prev_count_le step N f) as Hle.
  pose proof (fired_count_le (reveal_index step f N)) as H3.
  destruct (elem_of_markers_between (prev_count step N f)
              (fired_count (reveal_index step f N)) ltac:(lia))
    as (E1 & E2 & E3).
  destruct (fired_count_ge (reveal_index step f N)) as (G1 & G2 & G3).
  unfold first_reach.
  rewrite E1, E2, E3, G1, G2, G3.
  rewrite (prev_count_lt step N f 1 840) by
    (try lia; intros idx; apply (fired_count_ge idx)).
  rewrite (prev_count_lt step N f 2 1040) by
    (try lia; intros idx; apply (fired_count_ge idx)).
  rewrite (prev_count_lt step N f 3 2440) by
    (try lia; intros idx; apply (fired_count_ge idx)).
  tauto.
Qed.

(** ** Markers: order and persistence *)

Lemma take_prefix_le {A} (l : list A) c c' :
  c <= c' -> take c l `prefix_of` take c' l.
Proof.
  intros Hc. replace (take c l) with (take c (take c' l)).
  - apply prefix_take.
  - rewrite take_take. f_equal. lia.
Qed.

(** From a list of the first [c] markers, any frames whatever leave a
    list of the first [c'] markers with [c <= c' <= 3]. *)
Lemma run_frames_markers step fs s c :
  c <= 3 -> stim_lines s = take c markers ->
  exists s' c',
    run_frames step fs s = Ok s'
    /\ c <= c' <= 3
    /\ stim_lines s' = take c' markers.
Proof.
  revert s c. induction fs as [|f fs IH]; intros s c Hc Hs.
  - exists s, c. cbn. split; [reflexivity|]. split; [lia|exact Hs].
  - cbn. rewrite update_with_eq. cbn.
    set (idx := reveal_index step f (length (time s))).
    destruct (IH (revealed idx s) (Nat.max c (fired_count idx)))
      as (s' & c' & Hrun & Hc' & Hs').
    + pose proof (fired_count_le idx). lia.
    + cbn. rewrite Hs. apply stim_after_prefix, Hc.
    + exists s', c'. split; [exact Hrun|]. split; [lia|exact Hs'].
Qed.

Lemma cycle_markers_prefix step s f g :
  f <= g ->
  stim_lines (cycle_before step s f) `prefix_of` stim_lines (cycle_before step s g).
Proof.
  intros Hfg. destruct f as [|j]; [apply prefix_nil|].
  destruct g as [|k]; [lia|]. cbn.
  apply take_prefix_le, fired_count_mono, reveal_index_mono. lia.
Qed.

(** C10. Whatever frames have been delivered since [init], the drawn
    markers are the first few of 21, 26, 61 in that order (so a marker is
    present only together with all the earlier ones), at most three; one
    more call of [update] keeps those drawn and extends them in the same
    order. A frame that crosses all three thresholds at once draws the
    three markers in that order. *)
Theorem markers_in_order step s fs :
  (exists s',
      run_frames step fs (init s) = Ok s'
      /\ stim_lines s' `prefix_of` [21; 26; 61]%Z
      /\ length (stim_lines s') <= 3
      /\ (forall f, exists s'',
            update_with step f s' = Ok s''
            /\ stim_lines s' `prefix_of` stim_lines s''
            /\ stim_lines s'' `prefix_of` [21; 26; 61]%Z
            /\ length (stim_lines s') <= length (stim_lines s'') <= 3))
  /\ (forall f,
        (2440 <= Z.of_nat (reveal_index step f (length (time s))))%Z ->
        exists s3,
          update_with step f (init s) = Ok s3
          /\ stim_lines s3 = [21; 26; 61]%Z).
Proof.
  split.
  - destruct (run_frames_markers step fs (init s) 0 ltac:(lia) eq_refl)
      as (s' & c' & Hrun & Hc' & Hs').
    exists s'. split; [exact Hrun|].
    split; [rewrite Hs'; apply prefix_take|].
    split; [rewrite Hs', length_take; lia|].
    intros f.
    destruct (run_frames_markers step [f] s' c' ltac:(lia) Hs')
      as (s'' & c'' & Hrun' & Hc'' & Hs'').
    cbn in Hrun'. exists s''. split.
    + destruct (update_with step f s') as [x|e]; cbn in Hrun'; congruence.
    + rewrite Hs', Hs''. split; [apply take_prefix_le; lia|].
      split; [apply prefix_take|]. rewrite !length_take. cbn. lia.
  - intros f Hf. eexists. split; [apply update_init|]. cbn.
    unfold fired_count. destruct (Z.leb_spec 2440
      (Z.of_nat (reveal_index step f (length (time s))))); [reflexivity|lia].
Qed.

(** ** Scenario A *)

Lemma length_samples_A : length samples_A = Z.to_nat 8000.
Proof. unfold samples_A. rewrite length_fmap, length_seq. reflexivity. Qed.

Lemma lookup_samples_A i :
  i < Z.to_nat 8000 -> samples_A !! i = Some (Z.of_nat i # 40).
Proof.
  intros Hi. unfold samples_A. rewrite list_lookup_fmap, lookup_seq_lt by exact Hi.
  reflexivity.
Qed.

Lemma first_reach_A : first_reach 16 (Z.to_nat 8000) 840 53.
Proof.
  unfold first_reach, reveal_index. split; [lia|]. intros g Hg. lia.
Qed.

(** C6. Scenario A: 8000 samples 0.025 apart (sample 840 carries time
    21.0), [step = 16]. Frame 53 is the first whose reveal index reaches
    840; it draws exactly one new marker, the one of 21, on axes that had
    none. From any frame of the cycle to any later one the markers drawn
    stay drawn, in place, and are among the artists [update] returns. *)
Theorem scenario_A_markers vw vn :
  length samples_A = Z.to_nat 8000
  /\ (exists t, samples_A !! 840 = Some t /\ (t == 21)%Q)
  /\ first_reach 16 (length samples_A) 840 53
  /\ (exists sb sa,
        run_frames 16 (seq 0 53) (init (scenario_A vw vn)) = Ok sb
        /\ update 53 sb = Ok sa
        /\ stim_lines sb = []
        /\ stim_lines sa = [21%Z]
        /\ fired_now sb sa = [21%Z])
  /\ (forall f g, f <= g -> exists sf sg,
        run_frames 16 (seq 0 f) (init (scenario_A vw vn)) = Ok sf
        /\ run_frames 16 (seq 0 g) (init (scenario_A vw vn)) = Ok sg
        /\ stim_lines sf `prefix_of` stim_lines sg
        /\ (forall m, m ∈ stim_lines sf -> AVLine m ∈ artists sg)).
Proof.
  split; [apply length_samples_A|].
  split; [exists (840 # 40); split; [apply lookup_samples_A; lia|reflexivity]|].
  split; [rewrite length_samples_A; apply first_reach_A|].
  split.
  - exists (cycle_before 16 (scenario_A vw vn) 53),
           (cycle_state 16 (scenario_A vw vn) 53).
    split; [apply run_cycle|]. split; [apply update_cycle_before|].
    unfold fired_now. cbn [cycle_before cycle_state stim_lines scenario_A setup time].
    rewrite length_samples_A. split; [|split]; reflexivity.
  - intros f g Hfg.
    exists (cycle_before 16 (scenario_A vw vn) f),
           (cycle_before 16 (scenario_A vw vn) g).
    split; [apply run_cycle|]. split; [apply run_cycle|].
    pose proof (cycle_markers_prefix 16 (scenario_A vw vn) f g Hfg) as Hp.
    split; [exact Hp|].
    intros m Hm. unfold artists. apply elem_of_app. right.
    apply list_elem_of_fmap_2. eapply elem_of_prefix; eassumption.
Qed.

(** ** The end of a cycle and the restart *)

Lemma last_frame_full s :
  reveal_index 16 (length (time s) / 8 + 19) (length (time s)) = length (time s).
Proof.
  apply reveal_index_full; [lia|].
  pose proof (ceil_div_16_scheduled (length (time s))). lia.
Qed.

(** The store once a whole cycle begun on [s] is drawn. *)
Lemma cycle_end_state s :
  cycle_before 16 s (num_frames s)
  = MkStore (time s) (V_wide s) (V_narrow s)
            (MkLine (time s) (take (length (time s)) (V_wide s)))
            (MkLine (time s) (take (length (time s)) (V_narrow s)))
            (take (fired_count (length (time s))) markers)
            (visible_at (time s) (length (time s))).
Proof.
  unfold num_frames.
  replace (length (time s) / 8 + 20) with (S (length (time s) / 8 + 19)) by lia.
  cbn [cycle_before]. unfold cycle_state. cbn zeta.
  rewrite last_frame_full, firstn_all. reflexivity.
Qed.

(** C5. When the frames of a cycle are used up, the last one drawn was
    fully revealed and its markers are still on the axes; the next tick
    restarts: no marker is left, the traces are untouched, and the pending
    frames start again at 0. The tick after that draws frame 0, whose
    reveal index is 0: empty lines, no marker, the patch hidden. The
    animation begun on [s] is back at its starting state after that
    restart, with one cycle counted. *)
Theorem restart_after_cycle s :
  (exists a_end,
      ticks (num_frames s) (start s) = Ok a_end
      /\ frame_seq a_end = []
      /\ xdata (line_wide (st a_end)) = time s
      /\ xdata (line_narrow (st a_end)) = time s
      /\ stim_lines (st a_end) = take (fired_count (length (time s))) markers
      /\ tick a_end
         = Ok (MkAnim (init s) (num_frames s) (seq 0 (num_frames s)) 1))
  /\ (forall s_end n r, exists a1 a2,
        tick (MkAnim s_end (S n) [] r) = Ok a1
        /\ restarts a1 = S r
        /\ stim_lines (st a1) = []
        /\ time (st a1) = time s_end
        /\ V_wide (st a1) = V_wide s_end
        /\ V_narrow (st a1) = V_narrow s_end
        /\ head (frame_seq a1) = Some 0
        /\ reveal_index 16 0 (length (time s_end)) = 0
        /\ tick a1 = Ok a2
        /\ line_wide (st a2) = MkLine [] []
        /\ line_narrow (st a2) = MkLine [] []
        /\ stim_lines (st a2) = []
        /\ summation_patch (st a2) = false
        /\ time (st a2) = time s_end
        /\ V_wide (st a2) = V_wide s_end
        /\ V_narrow (st a2) = V_narrow s_end).
Proof.
  split.
  - eexists. split; [apply ticks_start; lia|].
    rewrite cycle_end_state, Nat.sub_diag. cbn.
    repeat (split; [reflexivity|]). reflexivity.
  - intros s_end n r.
    exists (MkAnim (init s_end) (S n) (seq 0 (S n)) (S r)),
           (MkAnim (cycle_state 16 s_end 0) (S n) (seq 1 n) (S r)).
    split; [reflexivity|]. cbn [st restarts frame_seq frames].
    do 7 (split; [reflexivity|]).
    split.
    + unfold tick, update. cbn [frame_seq seq st frames restarts].
      rewrite update_init. reflexivity.
    + cbn. repeat (split; [reflexivity|]). reflexivity.
Qed.

(** ** The visible slices *)

(** C7, as the scripts have it: a channel replaced by the empty sequence
    shows no sample at all, whatever the reveal index. With two time
    stamps and [V_narrow = []], frame 1 has [idx = 2]: both lines get two
    time stamps, the wide line two samples, the narrow line none. *)
Lemma degraded_channel_shows_no_sample :
  reveal_index 16 1 2 = 2
  /\ exists s',
       update 1 (setup [0; 1 # 40]%Q [-70 # 1; -70 # 1]%Q []) = Ok s'
       /\ length (xdata (line_wide s')) = 2
       /\ length (ydata (line_wide s')) = 2
       /\ length (xdata (line_narrow s')) = 2
       /\ length (ydata (line_narrow s')) = 0.
Proof.
  split; [reflexivity|]. eexists. split; [reflexivity|].
  repeat split.
Qed.

(** C7 (amended). Each call of [update] gives both lines the first [idx]
    time stamps and the first [idx] samples of their own trace, for the one
    [idx = min(frame * step, N) <= N]. The slice of time stamps has exactly
    [idx] elements; the slice of samples has [min(idx, len(V))] of them:
    exactly [idx] for a trace as long as the time stamps, none for a trace
    replaced by the empty sequence. The traces are left as they were. *)
Theorem visible_slices step frame s :
  exists s',
    update_with step frame s = Ok s'
    /\ reveal_index step frame (length (time s)) <= length (time s)
    /\ line_wide s'
       = MkLine (take (reveal_index step frame (length (time s))) (time s))
                (take (reveal_index step frame (length (time s))) (V_wide s))
    /\ line_narrow s'
       = MkLine (take (reveal_index step frame (length (time s))) (time s))
                (take (reveal_index step frame (length (time s))) (V_narrow s))
    /\ length (xdata (line_wide s')) = reveal_index step frame (length (time s))
    /\ length (xdata (line_narrow s')) = reveal_index step frame (length (time s))
    /\ length (ydata (line_wide s'))
       = Nat.min (reveal_index step frame (length (time s))) (length (V_wide s))
    /\ length (ydata (line_narrow s'))
       = Nat.min (reveal_index step frame (length (time s))) (length (V_narrow s))
    /\ (length (V_wide s) = length (time s) ->
        length (ydata (line_wide s')) = reveal_index step frame (length (time s)))
    /\ (length (V_narrow s) = length (time s) ->
        length (ydata (line_narrow s')) = reveal_index step frame (length (time s)))
    /\ (V_wide s = [] -> ydata (line_wide s') = [])
    /\ (V_narrow s = [] -> ydata (line_narrow s') = [])
    /\ time s' = time s /\ V_wide s' = V_wide s /\ V_narrow s' = V_narrow s.
Proof.
  eexists. split; [apply update_with_eq|].
  pose proof (reveal_index_le step frame (length (time s))) as Hle.
  cbn. split; [exact Hle|]. do 2 (split; [reflexivity|]).
  rewrite !length_take. do 2 (split; [lia|]). do 2 (split; [reflexivity|]).
  do 2 (split; [lia|]).
  split; [intros ->; apply take_nil|]. split; [intros ->; apply take_nil|].
  repeat split.
Qed.

Lemma update_slices_EI frame d :
  ExcitationInhibition.update frame d
  = (MkLine (take (Nat.min (frame * 10) (length (ExcitationInhibition.t d)))
                  (ExcitationInhibition.t d))
            (take (Nat.min (frame * 10) (length (ExcitationInhibition.t d)))
                  (ExcitationInhibition.V_A d)),
     MkLine (take (Nat.min (frame * 10) (length (ExcitationInhibition.t d)))
                  (ExcitationInhibition.t d))
            (take (Nat.min (frame * 10) (length (ExcitationInhibition.t d)))
                  (ExcitationInhibition.V_B d))).
Proof. reflexivity. Qed.

(** ** Empty data *)

Lemma update_empty step frame s :
  time s = [] ->
  update_with step frame s
  = Ok (MkStore [] (V_wide s) (V_narrow s) (MkLine [] []) (MkLine [] [])
                (stim_lines s) false).
Proof.
  intros Ht. rewrite update_with_eq. unfold revealed. rewrite Ht. cbn [length].
  replace (reveal_index step frame 0) with 0 by (unfold reveal_index; lia).
  reflexivity.
Qed.

Lemma tick_empty a :
  time (st a) = [] ->
  exists a',
    tick a = Ok a'
    /\ time (st a') = []
    /\ line_wide (st a') = MkLine [] []
    /\ line_narrow (st a') = MkLine [] []
    /\ length (stim_lines (st a')) <= length (stim_lines (st a))
    /\ summation_patch (st a') = false
    /\ restarts a' <= S (restarts a).
Proof.
  intros Ht. unfold tick, update. destruct (frame_seq a) as [|f rest].
  - eexists. split; [reflexivity|]. cbn. rewrite Ht.
    repeat split; first [reflexivity | lia].
  - rewrite update_empty by exact Ht. eexists. split; [reflexivity|]. cbn.
    repeat split; first [reflexivity | lia].
Qed.

(** C8. With no sample at all ([time] empty) every call of [update]
    computes the reveal index 0, leaves both lines empty, draws no marker
    and hides the patch, and a cycle still has 20 frames. No tick raises;
    after any positive number of ticks the lines are empty, no marker has
    been added, the patch is hidden, and at most one cycle has been
    completed per tick. *)
Theorem empty_data_ticks n a :
  time (st a) = [] ->
  (forall step frame, reveal_index step frame (length (time (st a))) = 0)
  /\ (forall step frame, exists s',
        update_with step frame (st a) = Ok s'
        /\ line_wide s' = MkLine [] []
        /\ line_narrow s' = MkLine [] []
        /\ stim_lines s' = stim_lines (st a)
        /\ summation_patch s' = false)
  /\ num_frames (st a) = 20
  /\ (exists a',
        ticks (S n) a = Ok a'
        /\ time (st a') = []
        /\ line_wide (st a') = MkLine [] []
        /\ line_narrow (st a') = MkLine [] []
        /\ length (stim_lines (st a')) <= length (stim_lines (st a))
        /\ summation_patch (st a') = false
        /\ restarts a' <= restarts a + S n).
Proof.
  intros Ht. split; [|split; [|split]].
  - intros step frame. rewrite Ht. unfold reveal_index. cbn [length]. lia.
  - intros step frame. eexists. split; [apply update_empty, Ht|].
    cbn. repeat split.
  - unfold num_frames. rewrite Ht. reflexivity.
  - revert a Ht. induction n as [|n IH]; intros a Ht.
    + destruct (tick_empty a Ht) as (a' & Htick & H1 & H2 & H3 & H4 & H5 & H6).
      exists a'. cbn [ticks]. rewrite Htick. cbn.
      repeat split; first [assumption | lia].
    + destruct (tick_empty a Ht) as (a1 & Htick & H1 & _ & _ & H4 & _ & H6).
      destruct (IH a1 H1) as (a' & Hticks & K1 & K2 & K3 & K4 & K5 & K6).
      exists a'. split.
      * change (ticks (S (S n)) a) with (a1' ← tick a; ticks (S n) a1').
        rewrite Htick. exact Hticks.
      * repeat split; first [assumption | lia].
Qed.

(** The instance of the animation started on no data at all. *)
Lemma empty_data_ticks_witness :
  time (st (start (setup [] [] []))) = []
  /\ num_frames (st (start (setup [] [] []))) = 20.
Proof.
  split; [reflexivity|].
  exact (proj1 (proj2 (proj2
           (empty_data_ticks 0 (start (setup [] [] [])) eq_refl)))).
Defined.

(** ** No access out of range *)

(** C9. For every frame number the reveal index stays within [0, N] and
    is [N] as soon as [frame * step] has reached [N]; the slice of the time
    stamps has exactly [idx] elements, the read of [time[idx-1]] under
    [idx > 0] finds an element, and [update] raises nothing. No tick of
    the animation raises either, however many frames are scheduled past
    the end of the data. *)
Theorem reveal_index_in_range step frame s :
  reveal_index step frame (length (time s)) <= length (time s)
  /\ (length (time s) <= frame * step ->
      reveal_index step frame (length (time s)) = length (time s))
  /\ length (take (reveal_index step frame (length (time s))) (time s))
     = reveal_index step frame (length (time s))
  /\ (reveal_index step frame (length (time s)) = 0
      \/ is_Some (time s !! (reveal_index step frame (length (time s)) - 1)))
  /\ succeeds (highlight (time s) (reveal_index step frame (length (time s))))
  /\ succeeds (update_with step frame s)
  /\ (forall n a, succeeds (ticks n a)).
Proof.
  pose proof (reveal_index_le step frame (length (time s))) as Hle.
  split; [exact Hle|].
  split; [unfold reveal_index; lia|].
  split; [apply length_take_le, Hle|].
  split.
  - destruct (reveal_index step frame (length (time s))) as [|i] eqn:E;
      [left; reflexivity|right].
    apply lookup_lt_is_Some_2. lia.
  - split; [rewrite highlight_in_range by exact Hle; eexists; reflexivity|].
    split; [rewrite update_with_eq; eexists; reflexivity|].
    intros n a. apply ticks_succeeds.
Qed.

(** ** A channel missing from the simulator's output *)

(** The guarded extraction of the marker scripts: an absent cell, an
    absent ['V_soma'], or a ['V_soma'] that is no dictionary give the empty
    sequence, and the other cell's sequence does not depend on it. *)
Lemma extract_channels_missing (d : simdata) (cells : gmap string (list Q)) :
  sim_traces d !! "V_soma" = Some (SimDict cells) ->
  cells !! "cell_1" = None ->
  extract_channels d = (default [] (cells !! "cell_0"), []).
Proof. intros Hd Hc. unfold extract_channels. rewrite Hd, Hc. reflexivity. Qed.

Lemma extract_channels_no_traces (d : simdata) :
  sim_traces d !! "V_soma" = None -> extract_channels d = ([], []).
Proof. intros Hd. unfold extract_channels. rewrite Hd. reflexivity. Qed.

(** The plain subscripts of the third script raise [KeyError] as soon as
    one of the two cells is absent. *)
Lemma load_EI_missing (d : simdata) (cells : gmap string (list Q)) :
  sim_traces d !! "V_soma" = Some (SimDict cells) ->
  cells !! "cell_0" = None \/ cells !! "cell_1" = None ->
  forall x, ExcitationInhibition.load d <> Ok x.
Proof.
  intros Hd Hc x. unfold ExcitationInhibition.load, ExcitationInhibition.extract_cell.
  destruct (extract_time d) as [t|e]; cbn; [|discriminate].
  unfold dict_getitem. rewrite Hd. cbn.
  destruct (cells !! "cell_0") as [va|]; cbn; [|discriminate].
  destruct Hc as [Hc|Hc]; [discriminate|]. rewrite Hc. cbn. discriminate.
Qed.

(** C3. On an output that lacks ['cell_1']: the marker scripts load it
    with the empty sequence for that channel, every frame then gives that
    line the empty slice and the other line its usual slice; the third
    script raises [KeyError] while loading. *)
Theorem missing_channel_at_load :
  extract_channels sim_without_cell_1 = ([-70 # 1; -70 # 1]%Q, [])
  /\ (exists s,
        load sim_without_cell_1 = Ok s
        /\ V_narrow s = []
        /\ forall frame, exists s',
             update frame s = Ok s'
             /\ ydata (line_narrow s') = []
             /\ line_wide s'
                = MkLine (take (reveal_index 16 frame 2) (time s))
                         (take (reveal_index 16 frame 2) (V_wide s)))
  /\ ExcitationInhibition.extract_cell sim_without_cell_1 "cell_0"
     = Ok [-70 # 1; -70 # 1]%Q
  /\ ExcitationInhibition.extract_cell sim_without_cell_1 "cell_1"
     = Raise KeyError
  /\ ExcitationInhibition.load sim_without_cell_1 = Raise KeyError.
Proof.
  split; [vm_compute; reflexivity|].
  split.
  - exists (setup [0; 1 # 40]%Q [-70 # 1; -70 # 1]%Q []).
    split; [vm_compute; reflexivity|]. split; [reflexivity|].
    intros frame. eexists. split; [apply update_with_eq|].
    cbn. split; [apply take_nil|reflexivity].
  - repeat split; vm_compute; reflexivity.
Qed.

(** * Further properties of the scripts *)

(** ** Loading the simulator's output *)



(** ** How much of the trace a cycle shows *)

(** X3. In the third script ([step = 10], [frames = len(time) // 10]) no
    scheduled frame shows the whole trace: every frame leaves at least the
    last 10 samples hidden, on both lines. *)
Theorem EI_tail_never_shown (d : ExcitationInhibition.traces) (f : nat) :
  f < ExcitationInhibition.frames d ->
  length (xdata (fst (ExcitationInhibition.update f d))) + 10
    <= length (ExcitationInhibition.t d)
  /\ length (xdata (snd (ExcitationInhibition.update f d))) + 10
    <= length (ExcitationInhibition.t d)
  /\ length (ydata (fst (ExcitationInhibition.update f d))) + 10
    <= length (ExcitationInhibition.t d)
  /\ length (ydata (snd (ExcitationInhibition.update f d))) + 10
    <= length (ExcitationInhibition.t d)
  /\ xdata (fst (ExcitationInhibition.update f d))
     <> ExcitationInhibition.t d.
Proof.
  unfold ExcitationInhibition.frames, ExcitationInhibition.update. intros Hf.
  set (N := length (ExcitationInhibition.t d)) in *.
  assert (reveal_index 10 f N + 10 <= N) as Hidx.
  { unfold reveal_index.
    pose proof (Nat.div_mod_eq N 10). pose proof (Nat.mod_upper_bound N 10).
    nia. }
  cbn [fst snd xdata ydata]. rewrite !length_take. fold N.
  split; [lia|]. split; [lia|]. split; [lia|]. split; [lia|].
  intros Heq. apply (f_equal length) in Heq. rewrite length_take in Heq.
  fold N in Heq. lia.
Qed.

(** A trace of 25 samples: frames 0 and 1 are scheduled. *)
Lemma EI_tail_never_shown_witness :
  1 < ExcitationInhibition.frames
        (ExcitationInhibition.MkTraces (replicate 25 0%Q) [] [])
  /\ length (xdata (fst (ExcitationInhibition.update 1
               (ExcitationInhibition.MkTraces (replicate 25 0%Q) [] [])))) + 10
     <= 25.
Proof.
  split; [cbn; lia|].
  exact (proj1 (EI_tail_never_shown
                  (ExcitationInhibition.MkTraces (replicate 25 0%Q) [] []) 1
                  ltac:(cbn; lia))).
Defined.

(** X4. In the marker scripts ([step = 16], [num_frames = len(time) // 8 +
    20]) every frame from [ceil(N / 16)] on shows all the time stamps on
    both lines, and at least the last 19 frames of every cycle do. *)
Theorem full_trace_held (s : store) :
  19 <= num_frames s - ceil_div (length (time s)) 16
  /\ (forall f, ceil_div (length (time s)) 16 <= f ->
        exists s',
          update f s = Ok s'
          /\ xdata (line_wide s') = time s
          /\ xdata (line_narrow s') = time s
          /\ ydata (line_wide s') = take (length (time s)) (V_wide s)
          /\ ydata (line_narrow s') = take (length (time s)) (V_narrow s)).
Proof.
  split.
  - unfold num_frames, ceil_div.
    pose proof (Nat.div_mod_eq (length (time s) + 16 - 1) 16).
    pose proof (Nat.mod_upper_bound (length (time s) + 16 - 1) 16 ltac:(lia)).
    pose proof (Nat.div_mod_eq (length (time s)) 8).
    pose proof (Nat.mod_upper_bound (length (time s)) 8 ltac:(lia)).
    lia.
  - intros f Hf. eexists. split; [apply update_with_eq|].
    apply reveal_index_full in Hf; [|lia]. cbn. rewrite Hf, firstn_all.
    repeat split.
Qed.

(** ** Cycles repeat *)

Lemma ticks_add n m a :
  ticks (n + m) a = (a' ← ticks n a; ticks m a').
Proof.
  revert a. induction n as [|n IH]; intros a; [reflexivity|].
  cbn. destruct (tick a) as [a1|e]; cbn; [apply IH|reflexivity].
Qed.

Lemma init_cycle_before s k : init (cycle_before 16 s k) = init s.
Proof. destruct k; reflexivity. Qed.

(** One whole cycle and the restart that follows it. *)
Lemma ticks_whole_cycle s r :
  ticks (S (num_frames s)) (MkAnim (init s) (num_frames s) (seq 0 (num_frames s)) r)
  = Ok (MkAnim (init s) (num_frames s) (seq 0 (num_frames s)) (S r)).
Proof.
  replace (S (num_frames s)) with (num_frames s + 1) by lia.
  rewrite ticks_add.
  rewrite ticks_in_cycle by (cbn [frame_seq]; rewrite length_seq; lia).
  cbn [frame_seq st frames restarts].
  rewrite take_seq, drop_seq, Nat.min_l, Nat.sub_diag by lia.
  rewrite run_cycle. cbn. rewrite init_cycle_before. reflexivity.
Qed.

Lemma ticks_cycles s c :
  ticks (c * S (num_frames s)) (start s)
  = Ok (MkAnim (init s) (num_frames s) (seq 0 (num_frames s)) c).
Proof.
  induction c as [|c IH]; [reflexivity|].
  replace (S c * S (num_frames s)) with (c * S (num_frames s) + S (num_frames s))
    by lia.
  rewrite ticks_add, IH. cbn [mbind result_bind]. apply ticks_whole_cycle.
Qed.

(** X5. The animation is periodic with period [num_frames + 1] ticks: [k]
    ticks into cycle number [c] the store is the one reached [k] ticks into
    the first cycle (frames [0 .. k-1] drawn on the initialised store), the
    pending frames are [k .. num_frames-1], and [c] cycles are counted. *)
Theorem animation_periodic s c k :
  k <= num_frames s ->
  exists sk,
    run_frames 16 (seq 0 k) (init s) = Ok sk
    /\ ticks k (start s)
       = Ok (MkAnim sk (num_frames s) (seq k (num_frames s - k)) 0)
    /\ ticks (c * S (num_frames s) + k) (start s)
       = Ok (MkAnim sk (num_frames s) (seq k (num_frames s - k)) c).
Proof.
  intros Hk. exists (cycle_before 16 s k).
  split; [apply run_cycle|]. split; [apply ticks_start, Hk|].
  rewrite ticks_add, ticks_cycles. cbn [mbind result_bind].
  rewrite ticks_in_cycle by (cbn [frame_seq]; rewrite length_seq; lia).
  cbn [frame_seq st frames restarts].
  rewrite take_seq, drop_seq, Nat.min_l by lia.
  rewrite run_cycle. reflexivity.
Qed.

(** Two samples: 20 frames per cycle; 3 ticks into the third cycle. *)
Lemma animation_periodic_witness :
  3 <= num_frames (setup [0; 1 # 40]%Q [] [])
  /\ exists sk,
       run_frames 16 (seq 0 3) (init (setup [0; 1 # 40]%Q [] [])) = Ok sk
       /\ ticks 3 (start (setup [0; 1 # 40]%Q [] []))
          = Ok (MkAnim sk (num_frames (setup [0; 1 # 40]%Q [] []))
                       (seq 3 (num_frames (setup [0; 1 # 40]%Q [] []) - 3)) 0)
       /\ ticks (2 * S (num_frames (setup [0; 1 # 40]%Q [] [])) + 3)
                (start (setup [0; 1 # 40]%Q [] []))
          = Ok (MkAnim sk (num_frames (setup [0; 1 # 40]%Q [] []))
                       (seq 3 (num_frames (setup [0; 1 # 40]%Q [] []) - 3)) 2).
Proof.
  split; [cbn; lia|].
  exact (animation_periodic (setup [0; 1 # 40]%Q [] []) 2 3 ltac:(cbn; lia)).
Defined.

(** ** Frames out of step *)

(** From a store that holds the data of [s] and the first [c] markers,
    frames that do not exceed [g] leave such a store, with no more markers
    than frame [g] draws. *)
Lemma run_frames_below step s g fs x c :
  (forall f, f ∈ fs -> f <= g) ->
  time x = time s -> V_wide x = V_wide s -> V_narrow x = V_narrow s ->
  stim_lines x = take c markers ->
  c <= fired_count (reveal_index step g (length (time s))) ->
  exists x' c',
    run_frames step fs x = Ok x'
    /\ time x' = time s /\ V_wide x' = V_wide s /\ V_narrow x' = V_narrow s
    /\ stim_lines x' = take c' markers
    /\ c' <= fired_count (reveal_index step g (length (time s))).
Proof.
  revert x c. induction fs as [|f fs IH]; intros x c Hfs Ht Hw Hn Hl Hc.
  - exists x, c. cbn. repeat split; assumption.
  - cbn. rewrite update_with_eq. cbn [mbind result_bind].
    set (idx := reveal_index step f (length (time x))).
    assert (fired_count idx <= fired_count (reveal_index step g (length (time s))))
      as Hidx.
    { subst idx. rewrite Ht. apply fired_count_mono, reveal_index_mono.
      apply Hfs. left. }
    apply (IH (revealed idx x) (Nat.max c (fired_count idx))).
    + intros h Hh. apply Hfs. right. exact Hh.
    + exact Ht.
    + exact Hw.
    + exact Hn.
    + cbn. rewrite Hl. apply stim_after_prefix.
      pose proof (fired_count_le (reveal_index step g (length (time s)))). lia.
    + lia.
Qed.

(** X6. Dropped or repeated frames do not change the picture: if, since
    [init], only frames not exceeding [g] were drawn, in whatever order and
    number, then drawing frame [g] leaves the very store that the full run
    of frames [0 .. g] leaves. *)
Theorem skipped_frames_harmless step s fs g :
  (forall f, f ∈ fs -> f <= g) ->
  exists sg,
    run_frames step (seq 0 (S g)) (init s) = Ok sg
    /\ run_frames step (fs ++ [g]) (init s) = Ok sg.
Proof.
  intros Hfs. exists (cycle_before step s (S g)).
  split; [apply run_cycle|].
  destruct (run_frames_below step s g fs (init s) 0 Hfs eq_refl eq_refl eq_refl
              eq_refl ltac:(lia))
    as (x' & c' & Hrun & Ht & Hw & Hn & Hl & Hc).
  rewrite run_frames_app, Hrun. cbn. rewrite update_with_eq. cbn.
  unfold revealed, cycle_state. rewrite Ht, Hw, Hn, Hl.
  rewrite stim_after_prefix, Nat.max_r by
    (pose proof (fired_count_le (reveal_index step g (length (time s)))); lia).
  reflexivity.
Qed.

(** Frames 5, 0, 5, 3 and then 60 on scenario A. *)
Lemma skipped_frames_harmless_witness :
  (forall f, f ∈ [5; 0; 5; 3] -> f <= 60)
  /\ exists sg,
       run_frames 16 (seq 0 61) (init (scenario_A [] [])) = Ok sg
       /\ run_frames 16 ([5; 0; 5; 3] ++ [60]) (init (scenario_A [] [])) = Ok sg.
Proof.
  assert (forall f, f ∈ [5; 0; 5; 3] -> f <= 60) as H.
  { intros f Hf. repeat (apply elem_of_cons in Hf as [->|Hf]; [lia|]).
    apply elem_of_nil in Hf. destruct Hf. }
  split; [exact H|].
  exact (skipped_frames_harmless 16 (scenario_A [] []) [5; 0; 5; 3] 60 H).
Defined.

(** ** What [update] does to the markers of any store *)

Lemma add_marker_facts T thr k idx l :
  l `prefix_of` add_marker T thr k idx l
  /\ length (add_marker T thr k idx l) <= Nat.max (length l) k
  /\ (k <= length l -> add_marker T thr k idx l = l)
  /\ (forall m, m ∈ add_marker T thr k idx l -> m ∈ l \/ m = T).
Proof.
  unfold add_marker.
  destruct (Nat.ltb_spec (length l) k) as [Hlt|Hge];
    destruct (thr <=? Z.of_nat idx)%Z; cbn [andb].
  - split; [apply prefix_app_r; reflexivity|].
    split; [rewrite length_app; cbn; lia|]. split; [lia|].
    intros m Hm. apply elem_of_app in Hm as [Hm|Hm]; [left; exact Hm|right].
    apply list_elem_of_singleton in Hm. exact Hm.
  - split; [reflexivity|]. split; [lia|]. split; [reflexivity|]. auto.
  - split; [reflexivity|]. split; [lia|]. split; [reflexivity|]. auto.
  - split; [reflexivity|]. split; [lia|]. split; [reflexivity|]. auto.
Qed.

(** X7. On any store whatever, [update] keeps the markers already drawn,
    in place, and only ever appends 21, 26 or 61; it never takes the list
    beyond three markers unless it was longer already, and a list of three
    or more is left as it is. Markers are removed by [init] alone. *)
Theorem update_keeps_markers step frame s :
  exists s',
    update_with step frame s = Ok s'
    /\ stim_lines s `prefix_of` stim_lines s'
    /\ length (stim_lines s') <= Nat.max (length (stim_lines s)) 3
    /\ (3 <= length (stim_lines s) -> stim_lines s' = stim_lines s)
    /\ (forall m, m ∈ stim_lines s' ->
          m ∈ stim_lines s \/ m = 21%Z \/ m = 26%Z \/ m = 61%Z).
Proof.
  eexists. split; [apply update_with_eq|]. cbn [revealed stim_lines].
  set (idx := reveal_index step frame (length (time s))).
  set (l0 := stim_lines s). unfold stim_after.
  destruct (add_marker_facts 21 840 1 idx l0) as (P1 & L1 & K1 & M1).
  set (l1 := add_marker 21 840 1 idx l0) in *.
  destruct (add_marker_facts 26 1040 2 idx l1) as (P2 & L2 & K2 & M2).
  set (l2 := add_marker 26 1040 2 idx l1) in *.
  destruct (add_marker_facts 61 2440 3 idx l2) as (P3 & L3 & K3 & M3).
  set (l3 := add_marker 61 2440 3 idx l2) in *.
  split; [etrans; [exact P1|]; etrans; [exact P2|exact P3]|].
  split; [lia|]. split.
  - intros H3. rewrite K3, K2, K1; [reflexivity|lia| |].
    + rewrite K1 by lia. lia.
    + rewrite K2, K1; [lia|lia|]. rewrite K1 by lia. lia.
  - intros m Hm. apply M3 in Hm as [Hm|Hm]; [|tauto].
    apply M2 in Hm as [Hm|Hm]; [|tauto].
    apply M1 in Hm as [Hm|Hm]; tauto.
Qed.

(** ** The trace only grows along a cycle *)

(** X8. From a frame of a cycle to any later one the data of each line is
    extended: what frame [f] shows of the time stamps and of each trace is
    a prefix of what frame [g >= f] shows. *)
Theorem trace_grows step s f g :
  f <= g ->
  exists sf sg,
    run_frames step (seq 0 (S f)) (init s) = Ok sf
    /\ run_frames step (seq 0 (S g)) (init s) = Ok sg
    /\ xdata (line_wide sf) `prefix_of` xdata (line_wide sg)
    /\ ydata (line_wide sf) `prefix_of` ydata (line_wide sg)
    /\ xdata (line_narrow sf) `prefix_of` xdata (line_narrow sg)
    /\ ydata (line_narrow sf) `prefix_of` ydata (line_narrow sg).
Proof.
  intros Hfg. exists (cycle_before step s (S f)), (cycle_before step s (S g)).
  split; [apply run_cycle|]. split; [apply run_cycle|]. cbn.
  pose proof (reveal_index_mono step f g (length (time s)) Hfg).
  repeat split; apply take_prefix_le; assumption.
Qed.

(** Frames 1 and 2 of scenario A. *)
Lemma trace_grows_witness :
  1 <= 2
  /\ exists sf sg,
       run_frames 16 (seq 0 2) (init (scenario_A rest_A rest_A)) = Ok sf
       /\ run_frames 16 (seq 0 3) (init (scenario_A rest_A rest_A)) = Ok sg
       /\ xdata (line_wide sf) `prefix_of` xdata (line_wide sg)
       /\ ydata (line_wide sf) `prefix_of` ydata (line_wide sg)
       /\ xdata (line_narrow sf) `prefix_of` xdata (line_narrow sg)
       /\ ydata (line_narrow sf) `prefix_of` ydata (line_narrow sg).
Proof.
  split; [lia|].
  exact (trace_grows 16 (scenario_A rest_A rest_A) 1 2 ltac:(lia)).
Defined.

(** ** The highlight along a cycle *)

Lemma patch_after_eq step s f :
  patch_after step s f
  = visible_at (time s) (reveal_index step f (length (time s))).
Proof. unfold patch_after. rewrite run_cycle. reflexivity. Qed.

Lemma visible_at_inv (t : list Q) idx :
  visible_at t idx = true ->
  exists i x, idx = S i /\ t !! i = Some x /\ (20 <= x /\ x <= 35)%Q.
Proof.
  destruct idx as [|i]; cbn; [discriminate|].
  destruct (t !! i) as [x|] eqn:E; [|discriminate].
  intros Hb. exists i, x. split; [reflexivity|]. split; [exact E|].
  apply between_iff, Hb.
Qed.

(** X9. When the time stamps are in non-decreasing order, the frames of a
    cycle on which the patch is shown form one uninterrupted run: shown
    after frame [f1] and after frame [f3], it is shown after every frame
    in between. *)
Theorem highlight_contiguous step s f1 f2 f3 :
  ascending (time s) ->
  f1 <= f2 -> f2 <= f3 ->
  patch_after step s f1 = true ->
  patch_after step s f3 = true ->
  patch_after step s f2 = true.
Proof.
  intros Hasc H12 H23. rewrite !patch_after_eq.
  pose proof (reveal_index_mono step f1 f2 (length (time s)) H12) as M12.
  pose proof (reveal_index_mono step f2 f3 (length (time s)) H23) as M23.
  pose proof (reveal_index_le step f2 (length (time s))) as Hle.
  intros (i1 & x1 & E1 & L1 & B1 & _)%visible_at_inv
         (i3 & x3 & E3 & L3 & _ & B3)%visible_at_inv.
  destruct (reveal_index step f2 (length (time s))) as [|i2] eqn:E2; [lia|].
  cbn [visible_at].
  destruct (lookup_lt_is_Some_2 (time s) i2 ltac:(lia)) as [x2 L2].
  rewrite L2. apply between_iff. split.
  - eapply Qle_trans; [exact B1|]. apply (Hasc i1 i2); [lia|assumption..].
  - eapply Qle_trans; [|exact B3]. apply (Hasc i2 i3); [lia|assumption..].
Qed.

(** Time stamps 0, 20, 25, 30, 40 with [step = 1]: the patch is shown
    after frames 2 and 4, hence after frame 3, which lies strictly between
    them. *)
Lemma highlight_contiguous_witness :
  ascending (time (setup [0; 20; 25; 30; 40]%Q [] []))
  /\ 2 <= 3 /\ 3 <= 4
  /\ patch_after 1 (setup [0; 20; 25; 30; 40]%Q [] []) 2 = true
  /\ patch_after 1 (setup [0; 20; 25; 30; 40]%Q [] []) 4 = true
  /\ patch_after 1 (setup [0; 20; 25; 30; 40]%Q [] []) 3 = true.
Proof.
  assert (ascending (time (setup [0; 20; 25; 30; 40]%Q [] []))) as Hasc.
  { intros i j x y Hij Hi Hj. cbn in Hi, Hj.
    destruct i as [|[|[|[|[|i]]]]]; destruct j as [|[|[|[|[|j]]]]];
      cbn in Hi, Hj; try discriminate; try lia;
      injection Hi as <-; injection Hj as <-; unfold Qle; cbn; lia. }
  split; [exact Hasc|]. split; [lia|]. split; [lia|].
  split; [reflexivity|]. split; [reflexivity|].
  exact (highlight_contiguous 1 (setup [0; 20; 25; 30; 40]%Q [] []) 2 3 4 Hasc
           ltac:(lia) ltac:(lia) eq_refl eq_refl).
Defined.

(** ** The marker thresholds in double precision *)

Lemma threshold_exact_upto_200 :
  forallb threshold_exact (map Z.of_nat (seq 0 201)) = true.
Proof. vm_compute. reflexivity. Qed.

(** X10. For every whole number of milliseconds [T] of the simulated run
    ([0 <= T <= 200]) the double-precision quotient [T / dt] truncates to
    exactly [40 * T]: rounding never moves a threshold by a sample, and the
    marker statement for [T] draws exactly when [idx >= 40 * T] and fewer
    than [k] markers are drawn. *)
Theorem marker_threshold_exact T k idx s :
  (0 <= T <= 200)%Z ->
  py_int (PrimFloat.div (PrimFloat.of_uint63 (Uint63.of_Z T)) dt)
  = Ok (40 * T)%Z
  /\ marker T k idx s
     = Ok (if (40 * T <=? Z.of_nat idx)%Z && (length (stim_lines s) <? k)
           then append_axvline T s else s).
Proof.
  intros HT.
  assert (threshold_exact T = true) as Hex.
  { pose proof threshold_exact_upto_200 as Hall.
    rewrite forallb_forall in Hall. apply Hall.
    apply in_map_iff. exists (Z.to_nat T). split; [lia|].
    apply in_seq. lia. }
  unfold threshold_exact in Hex.
  destruct (py_int (PrimFloat.div (PrimFloat.of_uint63 (Uint63.of_Z T)) dt))
    as [z|e] eqn:Hz; [|discriminate].
  apply Z.eqb_eq in Hex. subst z. split; [reflexivity|].
  unfold marker. rewrite Hz. cbn [mbind result_bind].
  destruct (_ && _); reflexivity.
Qed.

(** The stimulus at 100 ms. *)
Lemma marker_threshold_exact_witness :
  (0 <= 100 <= 200)%Z
  /\ py_int (PrimFloat.div (PrimFloat.of_uint63 (Uint63.of_Z 100)) dt)
     = Ok (40 * 100)%Z.
Proof.
  split; [lia|].
  exact (proj1 (marker_threshold_exact 100 1 0 (setup [] [] []) ltac:(lia))).
Defined.

(** ** The result summary of the third script *)

Lemma fold_max_facts (l : list Q) (m0 : Q) :
  let m := fold_left (λ best item, if Qle_bool item best then best else item) l m0 in
  (m = m0 \/ m ∈ l) /\ (m0 <= m)%Q /\ (forall x, x ∈ l -> (x <= m)%Q).
Proof.
  revert m0. induction l as [|y l IH]; intros m0; cbn.
  - split; [left; reflexivity|]. split; [apply Qle_refl|].
    intros x Hx. apply elem_of_nil in Hx. destruct Hx.
  - destruct (Qle_bool y m0) eqn:Hy.
    + apply Qle_bool_iff in Hy. destruct (IH m0) as (Hin & Hle & Hall).
      split; [destruct Hin as [->|Hin]; [left; reflexivity|right; right; exact Hin]|].
      split; [exact Hle|].
      intros x Hx. apply elem_of_cons in Hx as [->|Hx]; [|apply Hall, Hx].
      eapply Qle_trans; eassumption.
    + assert (m0 <= y)%Q as Hlt.
      { apply Qlt_le_weak, Qnot_le_lt. intros H. apply Qle_bool_iff in H.
        congruence. }
      destruct (IH y) as (Hin & Hle & Hall).
      split; [right; destruct Hin as [->|Hin]; [left|right; exact Hin]|].
      split; [eapply Qle_trans; eassumption|].
      intros x Hx. apply elem_of_cons in Hx as [->|Hx]; [exact Hle|apply Hall, Hx].
Qed.

Lemma fold_min_facts (l : list Q) (m0 : Q) :
  let m := fold_left (λ best item, if Qle_bool best item then best else item) l m0 in
  (m = m0 \/ m ∈ l) /\ (m <= m0)%Q /\ (forall x, x ∈ l -> (m <= x)%Q).
Proof.
  revert m0. induction l as [|y l IH]; intros m0; cbn.
  - split; [left; reflexivity|]. split; [apply Qle_refl|].
    intros x Hx. apply elem_of_nil in Hx. destruct Hx.
  - destruct (Qle_bool m0 y) eqn:Hy.
    + apply Qle_bool_iff in Hy. destruct (IH m0) as (Hin & Hle & Hall).
      split; [destruct Hin as [->|Hin]; [left; reflexivity|right; right; exact Hin]|].
      split; [exact Hle|].
      intros x Hx. apply elem_of_cons in Hx as [->|Hx]; [|apply Hall, Hx].
      eapply Qle_trans; eassumption.
    + assert (y <= m0)%Q as Hlt.
      { apply Qlt_le_weak, Qnot_le_lt. intros H. apply Qle_bool_iff in H.
        congruence. }
      destruct (IH y) as (Hin & Hle & Hall).
      split; [right; destruct Hin as [->|Hin]; [left|right; exact Hin]|].
      split; [eapply Qle_trans; eassumption|].
      intros x Hx. apply elem_of_cons in Hx as [->|Hx]; [exact Hle|apply Hall, Hx].
Qed.

Lemma py_max_facts (l : list Q) :
  match py_max l with
  | Ok m => m ∈ l /\ forall x, x ∈ l -> (x <= m)%Q
  | Raise e => e = ValueError /\ l = []
  end.
Proof.
  destruct l as [|x l]; cbn; [split; reflexivity|].
  destruct (fold_max_facts l x) as (Hin & Hle & Hall).
  split.
  - destruct Hin as [->|Hin]; [left|right; exact Hin].
  - intros y Hy. apply elem_of_cons in Hy as [->|Hy]; [exact Hle|apply Hall, Hy].
Qed.

Lemma py_min_facts (l : list Q) :
  match py_min l with
  | Ok m => m ∈ l /\ forall x, x ∈ l -> (m <= x)%Q
  | Raise e => e = ValueError /\ l = []
  end.
Proof.
  destruct l as [|x l]; cbn; [split; reflexivity|].
  destruct (fold_min_facts l x) as (Hin & Hle & Hall).
  split.
  - destruct Hin as [->|Hin]; [left|right; exact Hin].
  - intros y Hy. apply elem_of_cons in Hy as [->|Hy]; [exact Hle|apply Hall, Hy].
Qed.

(** X11. The summary of the third script raises [ValueError] exactly when
    one of the two traces is empty; otherwise the peak it reports is a
    sample of [V_A] that no sample of [V_A] exceeds, and the minimum is a
    sample of [V_B] below which no sample of [V_B] lies. *)
Theorem summary_EI (d : ExcitationInhibition.traces) :
  match ExcitationInhibition.summary d with
  | Ok (peak, low) =>
      peak ∈ ExcitationInhibition.V_A d
      /\ (forall x, x ∈ ExcitationInhibition.V_A d -> (x <= peak)%Q)
      /\ low ∈ ExcitationInhibition.V_B d
      /\ (forall x, x ∈ ExcitationInhibition.V_B d -> (low <= x)%Q)
  | Raise e =>
      e = ValueError
      /\ (ExcitationInhibition.V_A d = [] \/ ExcitationInhibition.V_B d = [])
  end.
Proof.
  unfold ExcitationInhibition.summary.
  pose proof (py_max_facts (ExcitationInhibition.V_A d)) as Hmax.
  pose proof (py_min_facts (ExcitationInhibition.V_B d)) as Hmin.
  destruct (py_max (ExcitationInhibition.V_A d)) as [peak|e]; cbn.
  - destruct (py_min (ExcitationInhibition.V_B d)) as [low|e]; cbn.
    + destruct Hmax, Hmin. repeat split; assumption.
    + destruct Hmin as [-> Hb]. split; [reflexivity|right; exact Hb].
  - destruct Hmax as [-> Ha]. split; [reflexivity|left; exact Ha].
Qed.
